(** * The task store of the to-do application (App.py)

    A shallow embedding of the data functions [load_tasks] and [save_tasks]
    and of the methods of [MainLayout], [TaskItem] and [ToDoApp] that read or
    change the task list, followed by the properties of the task store.

    Conventions of the embedding.
    - A Python object built by [json.load] or by the application is a
      [value]; numbers are integers (floating point numbers are left out).
    - A [str] is a [string] whose characters are the code points below 256.
    - A [dict] is an association list in insertion order, the order in
      which [json.dump] writes the keys.
    - The task dictionaries are mutable and shared between [ToDoApp.tasks]
      and the [TaskItem] widgets: they live in a heap and are named by
      their location.
    - The [json] module and the file system are outside App.py.  A file is
      described by what [json.load] makes of it, and [json.dump] writes a
      text that [json.load] decodes to the dumped object.
    - Kivy's widgets are reduced to what the task store needs: the text of
      the input field and, for each [TaskItem], the task it holds. *)

From Stdlib Require Import ZArith String Ascii List Bool Lia.
From stdpp Require Import base tactics option list strings.

Import ListNotations.
Local Open Scope string_scope.
Local Open Scope list_scope.

(** ** Python objects *)

#[warnings="-register-all"]
Inductive value : Type :=
| VNone
| VBool (b : bool)
| VInt (n : Z)
| VStr (s : string)
| VList (items : list value)
| VDict (entries : list (string * value)).

#[global] Instance value_inhabited : Inhabited value := populate VNone.

(** The exception classes that the modelled code can meet. *)
Inductive exn : Type :=
| JSONDecodeError
| UnicodeDecodeError
| OSError
| TypeError
| ValueError
| KeyError.

(** [issubclass e cls]: the part of Python's exception hierarchy over
    [exn].  [IOError] is an alias of [OSError]; [JSONDecodeError] and
    [UnicodeDecodeError] both derive from [ValueError], and neither from the
    other. *)
Definition issubclass (e cls : exn) : bool :=
  match e, cls with
  | JSONDecodeError, (JSONDecodeError | ValueError) => true
  | UnicodeDecodeError, (UnicodeDecodeError | ValueError) => true
  | OSError, OSError => true
  | TypeError, TypeError => true
  | ValueError, ValueError => true
  | KeyError, KeyError => true
  | _, _ => false
  end.

(** The result of running a piece of code: a value, or a raised exception. *)
Inductive outcome (A : Type) : Type :=
| Ret (a : A)
| Raise (e : exn).
Arguments Ret {A} a.
Arguments Raise {A} e.

Definition bind {A B : Type} (m : outcome A) (k : A -> outcome B) : outcome B :=
  match m with
  | Ret a => k a
  | Raise e => Raise e
  end.

Notation "x <- m ;; k" := (bind m (fun x => k))
  (at level 100, m at next level, right associativity).

(** [try: body / except classes: handler]. *)
Definition try_except {A : Type} (body : outcome A) (classes : list exn)
    (handler : exn -> outcome A) : outcome A :=
  match body with
  | Ret a => Ret a
  | Raise e => if existsb (issubclass e) classes then handler e else Raise e
  end.

(** ** Dictionaries *)

Module Dict.

Definition t : Type := list (string * value).

(** [d.get(k)] *)
Fixpoint get (d : list (string * value)) (k : string) : option value :=
  match d with
  | [] => None
  | (k', v) :: d' => if String.eqb k' k then Some v else get d' k
  end.

(** [k in d] *)
Fixpoint contains (d : list (string * value)) (k : string) : bool :=
  match d with
  | [] => false
  | (k', _) :: d' => String.eqb k' k || contains d' k
  end.

(** [d[k] = v]: an existing key keeps its place, a new key goes last. *)
Fixpoint set (d : list (string * value)) (k : string) (v : value)
    : list (string * value) :=
  match d with
  | [] => [(k, v)]
  | (k', v') :: d' =>
      if String.eqb k' k then (k', v) :: d' else (k', v') :: set d' k v
  end.


End Dict.

(** [o[k]] for a string key [k]. *)
Definition getitem (o : value) (k : string) : outcome value :=
  match o with
  | VDict d =>
      match Dict.get d k with
      | Some v => Ret v
      | None => Raise KeyError
      end
  | _ => Raise TypeError
  end.

(** [o[k] = v] for a string key [k]; the result is the object after the
    assignment. *)
Definition setitem (o : value) (k : string) (v : value) : outcome value :=
  match o with
  | VDict d => Ret (VDict (Dict.set d k v))
  | _ => Raise TypeError
  end.

(** [a == b].  A [bool] is an [int] (True == 1); dictionaries compare
    regardless of the order of their keys. *)
Fixpoint py_eq (a b : value) {struct a} : bool :=
  match a, b with
  | VNone, VNone => true
  | VBool x, VBool y => Bool.eqb x y
  | VBool x, VInt n => Z.eqb (Z.b2z x) n
  | VInt m, VBool y => Z.eqb m (Z.b2z y)
  | VInt m, VInt n => Z.eqb m n
  | VStr s, VStr t => String.eqb s t
  | VList xs, VList ys =>
      (fix items (xs ys : list value) {struct xs} : bool :=
         match xs, ys with
         | [], [] => true
         | x :: xs', y :: ys' => py_eq x y && items xs' ys'
         | _, _ => false
         end) xs ys
  | VDict d, VDict e =>
      Nat.eqb (length d) (length e) &&
      (fix entries (d : list (string * value)) {struct d} : bool :=
         match d with
         | [] => true
         | (k, v) :: d' =>
             match Dict.get e k with
             | Some v' => py_eq v v'
             | None => false
             end && entries d'
         end) d
  | _, _ => false
  end.

(** [for x in o]: the items that iterating over [o] yields. *)
Definition py_iter (o : value) : outcome (list value) :=
  match o with
  | VList items => Ret items
  | VDict d => Ret (map (fun kv => VStr (fst kv)) d)
  | VStr s => Ret (map (fun c => VStr (String c "")) (list_ascii_of_string s))
  | VNone | VBool _ | VInt _ => Raise TypeError
  end.

(** ** Strings *)

(** [c.isspace()] for a code point below 256. *)
Definition isspace (c : ascii) : bool :=
  let n := nat_of_ascii c in
  (((9 <=? n) && (n <=? 13)) || ((28 <=? n) && (n <=? 32))
   || (n =? 133) || (n =? 160))%nat.

Fixpoint lstrip (s : string) : string :=
  match s with
  | EmptyString => EmptyString
  | String c s' => if isspace c then lstrip s' else s
  end.

Fixpoint rstrip (s : string) : string :=
  match s with
  | EmptyString => EmptyString
  | String c s' =>
      match rstrip s' with
      | EmptyString => if isspace c then EmptyString else String c EmptyString
      | r => String c r
      end
  end.

(** [s.strip()] *)
Definition strip (s : string) : string := rstrip (lstrip s).

(** The truth value of a [str]: [if s:]. *)
Definition truthy_str (s : string) : bool :=
  match s with
  | EmptyString => false
  | String _ _ => true
  end.

(** ** The file system and the console *)

(** What [tasks.json] holds, as [json.load] sees it: bytes that are not
    UTF-8, a text that is not a JSON document (an empty or a cut-off file
    among them), or a JSON document, given by the object it decodes to. *)
Inductive content : Type :=
| NotUtf8
| NotJson
| JsonText (v : value).

Inductive mode : Type := ModeR | ModeW.

(** The lines that the program prints. *)
Inductive message : Type :=
| LoadFailed (e : exn)     (* "Oshibka zagruzki zadach: {e}. ..." *)
| SaveFailed (e : exn)     (* "Oshibka sokhraneniya zadach: {e}" *)
| TaskNotFound             (* "Ne udalos' nayti zadachu dlya udaleniya" *)
| TasksSaved.              (* "Zadachi sokhraneny. Prilozhenie zakryvaetsya." *)

(** What the program does to the outside, oldest event first. *)
Inductive event : Type :=
| EvOpen (m : mode)
| EvPrint (msg : message).

Record world : Type := World {
  file : option content;   (* tasks.json, [None] when there is no such file *)
  read_ok : bool;          (* opening and reading the file works *)
  open_w_ok : bool;        (* opening the file for writing works *)
  write_ok : bool;         (* writing to the opened file works *)
  trace : list event
}.

Definition emit (e : event) (w : world) : world :=
  World (file w) (read_ok w) (open_w_ok w) (write_ok w) (trace w ++ [e]).

Definition set_file (c : option content) (w : world) : world :=
  World c (read_ok w) (open_w_ok w) (write_ok w) (trace w).

(** [print(msg)] *)
Definition print (msg : message) (w : world) : world := emit (EvPrint msg) w.

(** [os.path.exists(TASKS_FILE)] *)
Definition path_exists (w : world) : bool :=
  match file w with
  | Some _ => true
  | None => false
  end.

(** [open(TASKS_FILE, 'r', encoding='utf-8')] followed by reading. *)
Definition open_read (w : world) : outcome content :=
  match file w with
  | Some c => if read_ok w then Ret c else Raise OSError
  | None => Raise OSError
  end.

(** [json.load(f)] on the content read from [f]. *)
Definition json_load (c : content) : outcome value :=
  match c with
  | NotUtf8 => Raise UnicodeDecodeError
  | NotJson => Raise JSONDecodeError
  | JsonText v => Ret v
  end.

(** ** load_tasks and save_tasks *)

(** The condition of the list comprehension of [load_tasks]:
    [isinstance(task, dict) and 'description' in task and 'completed' in task]. *)
Definition isinstance_dict (o : value) : bool :=
  match o with
  | VDict _ => true
  | _ => false
  end.

Definition contains (o : value) (k : string) : bool :=
  match o with
  | VDict d => Dict.contains d k
  | _ => false
  end.

Definition is_valid_task (task : value) : bool :=
  isinstance_dict task && contains task "description" && contains task "completed".

(** The body of the [try] of [load_tasks]. *)
Definition load_tasks_body (w : world) : outcome (list value) :=
  c <- open_read w ;;
  tasks_data <- json_load c ;;
  items <- py_iter tasks_data ;;
  Ret (List.filter is_valid_task items).

Definition load_tasks (w : world) : outcome (list value) * world :=
  if negb (path_exists w) then (Ret [], w)
  else
    let w1 := emit (EvOpen ModeR) w in
    match load_tasks_body w1 with
    | Ret valid_tasks => (Ret valid_tasks, w1)
    | Raise e =>
        if existsb (issubclass e) [JSONDecodeError; OSError; TypeError]
        then (Ret [], print (LoadFailed e) w1)
        else (Raise e, w1)
    end.

(** [save_tasks(tasks)], on the objects that the list holds.  Opening for
    writing empties the file; when the write then fails, what is left in
    the file is not a JSON document. *)
Definition save_tasks (tasks : list value) (w : world) : world :=
  let w1 := emit (EvOpen ModeW) w in
  if negb (open_w_ok w1) then print (SaveFailed OSError) w1
  else if negb (write_ok w1)
       then print (SaveFailed OSError) (set_file (Some NotJson) w1)
       else set_file (Some (JsonText (VList tasks))) w1.

(** ** The application *)

(** A location of the heap. *)
Abbreviation loc := nat.

(** A [TaskItem] widget, reduced to the task dictionary it refers to. *)
Record TaskItem : Type := MkTaskItem { task_data : loc }.

(** The state of the running program: the heap of task dictionaries, the
    outside world, [ToDoApp.tasks], and of [MainLayout] the text of
    [task_input] and the children of [task_list_layout]. *)
Record state : Type := State {
  heap : list value;
  io : world;
  tasks : list loc;
  task_input : string;
  task_list_layout : list TaskItem
}.

Definition set_heap (h : list value) (st : state) : state :=
  State h (io st) (tasks st) (task_input st) (task_list_layout st).
Definition set_io (w : world) (st : state) : state :=
  State (heap st) w (tasks st) (task_input st) (task_list_layout st).
Definition set_tasks (ts : list loc) (st : state) : state :=
  State (heap st) (io st) ts (task_input st) (task_list_layout st).
Definition set_task_input (s : string) (st : state) : state :=
  State (heap st) (io st) (tasks st) s (task_list_layout st).
Definition set_task_list_layout (ws : list TaskItem) (st : state) : state :=
  State (heap st) (io st) (tasks st) (task_input st) ws.

(** The object at a location. *)
Definition deref (h : list value) (l : loc) : value := h !!! l.

(** The objects of a list of references: the task sequence as the
    serializer and the front end read it. *)
Definition objects (h : list value) (ls : list loc) : list value :=
  deref h <$> ls.

Definition task_objects (st : state) : list value :=
  objects (heap st) (tasks st).

(** [ToDoApp.save_all_tasks] *)
Definition save_all_tasks (st : state) : state :=
  set_io (save_tasks (task_objects st) (io st)) st.

(** [TaskItem.__init__]: the look-ups of the two fields, in the order of
    the source; the widget keeps the reference. *)
Definition TaskItem_init (h : list value) (task_data : loc) : outcome TaskItem :=
  _ <- getitem (deref h task_data) "completed" ;;
  _ <- getitem (deref h task_data) "description" ;;
  Ret (MkTaskItem task_data).

Fixpoint build_widgets (h : list value) (ls : list loc) : outcome (list TaskItem) :=
  match ls with
  | [] => Ret []
  | l :: ls' =>
      w <- TaskItem_init h l ;;
      ws <- build_widgets h ls' ;;
      Ret (w :: ws)
  end.

(** [MainLayout.refresh_tasks_ui] *)
Definition refresh_tasks_ui (st : state) : outcome state :=
  ws <- build_widgets (heap st) (tasks st) ;;
  Ret (set_task_list_layout ws st).

(** [ToDoApp.build]: the program starts in world [w]. *)
Definition build (w : world) : outcome state :=
  match load_tasks w with
  | (Ret loaded, w') =>
      refresh_tasks_ui (State loaded w' (seq 0 (length loaded)) "" [])
  | (Raise e, _) => Raise e
  end.

(** [ToDoApp.add_new_task] *)
Definition add_new_task (description : string) (st : state) : state :=
  if truthy_str description then
    let task := VDict [("description", VStr description); ("completed", VBool false)] in
    let l := length (heap st) in
    save_all_tasks (set_tasks (l :: tasks st) (set_heap (heap st ++ [task]) st))
  else st.

(** [MainLayout.add_task_from_input] *)
Definition add_task_from_input (st : state) : outcome state :=
  let description := strip (task_input st) in
  if truthy_str description then
    refresh_tasks_ui (set_task_input "" (add_new_task description st))
  else Ret st.

(** The test that [list.remove] and [list.index] apply to an item [y] when
    they look for [x]: [y is x or y == x]. *)
Definition is_or_eq (h : list value) (x y : loc) : bool :=
  Nat.eqb y x || py_eq (deref h y) (deref h x).

(** [list.remove(x)]: drops the first item that is [x] or equals it. *)
Fixpoint list_remove (h : list value) (x : loc) (ls : list loc) : outcome (list loc) :=
  match ls with
  | [] => Raise ValueError
  | y :: ls' =>
      if is_or_eq h x y then Ret ls'
      else (ls'' <- list_remove h x ls' ;; Ret (y :: ls''))
  end.

(** [ToDoApp.delete_task] *)
Definition delete_task (task_data_to_delete : loc) (st : state) : outcome state :=
  try_except
    (ts <- list_remove (heap st) task_data_to_delete (tasks st) ;;
     refresh_tasks_ui (save_all_tasks (set_tasks ts st)))
    [ValueError]
    (fun _ => Ret (set_io (print TaskNotFound (io st)) st)).

(** [TaskItem.delete_task] *)
Definition TaskItem_delete_task (self : TaskItem) (st : state) : outcome state :=
  delete_task (task_data self) st.

(** [TaskItem.on_checkbox_active] *)
Definition on_checkbox_active (self : TaskItem) (value : bool) (st : state)
    : outcome state :=
  task <- setitem (deref (heap st) (task_data self)) "completed" (VBool value) ;;
  let st1 := set_heap (<[task_data self := task]> (heap st)) st in
  _ <- getitem (deref (heap st1) (task_data self)) "description" ;;
  Ret (save_all_tasks st1).


(** The user types [s] into the input field and submits it. *)
Definition add (s : string) (st : state) : outcome state :=
  add_task_from_input (set_task_input s st).

(** The operations that the front end offers on the task store. *)
Inductive op : Type :=
| Add (s : string)
| Delete (self : TaskItem)
| SetCompleted (self : TaskItem) (value : bool).

Definition step (o : op) (st : state) : outcome state :=
  match o with
  | Add s => add s st
  | Delete self => TaskItem_delete_task self st
  | SetCompleted self value => on_checkbox_active self value st
  end.

(** The mutating operations: an addition of a description that is not
    blank, a deletion and a change of the completed flag through a widget. *)
Definition mutating (o : op) : Prop :=
  match o with
  | Add s => strip s <> ""
  | Delete _ | SetCompleted _ _ => True
  end.

(** A check box or a delete button belongs to a widget on the screen. *)
Definition enabled (o : op) (st : state) : Prop :=
  match o with
  | Add _ => True
  | Delete self | SetCompleted self _ => self ∈ task_list_layout st
  end.

(** The states of a run: start-up, then any operations. *)
Inductive reachable : state -> Prop :=
| reachable_build (w : world) (st : state) :
    build w = Ret st -> reachable st
| reachable_step (o : op) (st st' : state) :
    reachable st -> enabled o st -> step o st = Ret st' -> reachable st'.

(** ** The vocabulary of the specification *)

(** A field is present in a record. *)
Definition has_field (d : list (string * value)) (k : string) : Prop :=
  is_Some (Dict.get d k).

(** A record-shaped entry in which both a description and a completed
    field are present. *)
Definition task_shaped (o : value) : Prop :=
  match o with
  | VDict d => has_field d "description" /\ has_field d "completed"
  | _ => False
  end.

#[global] Instance task_shaped_dec (o : value) : Decision (task_shaped o).
Proof. destruct o; simpl; unfold has_field; apply _. Defined.


(** The file system works. *)
Definition readable (w : world) : Prop := read_ok w = true.
Definition writable (w : world) : Prop := open_w_ok w = true /\ write_ok w = true.

(** What happened between the worlds [w] and [w'], and what was printed. *)
Definition new_events (w w' : world) : list event :=
  drop (length (trace w)) (trace w').

Definition printed (w w' : world) : list message :=
  omap (fun e => match e with EvPrint msg => Some msg | EvOpen _ => None end)
       (new_events w w').

(** The file was opened for writing between [w] and [w']: a save ran. *)
Definition save_invoked (w w' : world) : Prop :=
  EvOpen ModeW ∈ new_events w w'.

(** The serialization of a task sequence, as the content of the file. *)
Definition serialization (ts : list value) : content := JsonText (VList ts).

(** An item that [list.remove] passes over when it looks for [x]. *)
Definition differs (h : list value) (x y : loc) : Prop := is_or_eq h x y = false.

(** The state that the store keeps between operations: the tasks are
    distinct live objects, each task-shaped, and every task has its
    widget, in the order of the list. *)
Record inv (st : state) : Prop := Inv {
  inv_nodup : NoDup (tasks st);
  inv_alloc : Forall (fun l => l < length (heap st)) (tasks st);
  inv_shape : Forall task_shaped (task_objects st);
  inv_layout : task_list_layout st = MkTaskItem <$> tasks st
}.

(** ** Load tolerance as the specification words it *)







(** ** Toggling as the specification words it *)




(** ** Sample inputs *)

Definition task (description : string) (completed : bool) : value :=
  VDict [("description", VStr description); ("completed", VBool completed)].

(** A working file system whose file holds [c]. *)
Definition disk (c : option content) : world := World c true true true [].

(** The file of the filter-on-load example:
    [[{"description":"x","completed":false},{"foo":"bar"},{"description":"y"}]]. *)
Definition doc_filter : list value :=
  [task "x" false; VDict [("foo", VStr "bar")]; VDict [("description", VStr "y")]].



(** [{"description": "Buy milk", "completed": "yes"}] *)
Definition rec_yes : value :=
  VDict [("description", VStr "Buy milk"); ("completed", VStr "yes")].


(** The program after start-up on a file that holds [rec_yes]. *)
Definition st_yes : state :=
  State [rec_yes] (emit (EvOpen ModeR) (disk (Some (JsonText (VList [rec_yes])))))
        [0] "" [MkTaskItem 0].

(** The program after start-up without a file and two additions. *)
Definition st_two : state :=
  State [task "Buy milk" false; task "Call mom" false]
        (World (Some (serialization [task "Call mom" false; task "Buy milk" false]))
               true true true [EvOpen ModeW; EvOpen ModeW])
        [1; 0] "" [MkTaskItem 1; MkTaskItem 0].

(** ** Blank and trimmed text *)

Definition starts_with_space (s : string) : bool :=
  match s with
  | EmptyString => false
  | String c _ => isspace c
  end.

Fixpoint ends_with_space (s : string) : bool :=
  match s with
  | EmptyString => false
  | String c EmptyString => isspace c
  | String _ s' => ends_with_space s'
  end.

(** Every character of [s] is white space. *)
Fixpoint all_space (s : string) : bool :=
  match s with
  | EmptyString => true
  | String c s' => isspace c && all_space s'
  end.


(** The program after start-up without a file and two additions of the
    same text. *)
Definition st_dup : state :=
  State [task "Buy milk" false; task "Buy milk" false]
        (World (Some (serialization [task "Buy milk" false; task "Buy milk" false]))
               true true true [EvOpen ModeW; EvOpen ModeW])
        [1; 0] "" [MkTaskItem 1; MkTaskItem 0].

#[global] Instance mutating_dec (o : op) : Decision (mutating o).
Proof. destruct o; simpl; apply _. Defined.


(** * Properties *)

Example strip_buy_milk : strip "  Buy milk  " = "Buy milk".
Proof. reflexivity. Qed.

Example strip_blank : strip "  " = "".
Proof. reflexivity. Qed.

(** ** Dictionaries *)

Section DictFacts.

Implicit Types (d : list (string * value)) (k : string) (v : value).

Lemma contains_has_field d k : Dict.contains d k = true <-> has_field d k.
Proof.
  unfold has_field. induction d as [|[k' v'] d IH]; simpl.
  - split; [discriminate | by intros [v Hv]].
  - destruct (String.eqb k' k); simpl; [|exact IH].
    split; eauto.
Qed.

Lemma get_set_eq d k v : Dict.get (Dict.set d k v) k = Some v.
Proof.
  induction d as [|[k' v'] d IH]; simpl.
  - by rewrite String.eqb_refl.
  - destruct (String.eqb k' k) eqn:E; simpl; by rewrite E.
Qed.

Lemma get_set_ne d k k' v :
  k <> k' -> Dict.get (Dict.set d k v) k' = Dict.get d k'.
Proof.
  intros Hne. induction d as [|[k0 v0] d IH]; simpl.
  - destruct (String.eqb_spec k k'); [contradiction | done].
  - destruct (String.eqb_spec k0 k) as [->|Hk]; simpl.
    + destruct (String.eqb_spec k k'); [contradiction | done].
    + destruct (String.eqb k0 k'); [done | exact IH].
Qed.

Lemma has_field_set d k k' v :
  has_field d k' -> has_field (Dict.set d k v) k'.
Proof.
  unfold has_field. intros [x Hx]. destruct (String.eqb_spec k k') as [->|Hne].
  - rewrite get_set_eq. eauto.
  - rewrite get_set_ne by done. eauto.
Qed.

Lemma has_field_set_eq d k v : has_field (Dict.set d k v) k.
Proof. unfold has_field. rewrite get_set_eq. eauto. Qed.




End DictFacts.

(** The condition of the comprehension of [load_tasks] is the
    specification's notion of a task record. *)
Lemma is_valid_task_spec (o : value) : is_valid_task o = true <-> task_shaped o.
Proof.
  unfold is_valid_task, task_shaped. destruct o; simpl; try (split; [discriminate | done]).
  by rewrite andb_true_iff, !contains_has_field.
Qed.

Lemma filter_is_valid_task (items : list value) :
  List.filter is_valid_task items = filter task_shaped items.
Proof.
  induction items as [|o items IH]; [done|]. simpl.
  rewrite filter_cons. destruct (is_valid_task o) eqn:E.
  - rewrite decide_True by (by apply is_valid_task_spec). by rewrite IH.
  - rewrite decide_False; [done|]. rewrite <- is_valid_task_spec. congruence.
Qed.


(** ** The console *)

Lemma new_events_emit (w : world) (e : event) : new_events w (emit e w) = [e].
Proof. unfold new_events. simpl. by rewrite drop_app_length. Qed.

Lemma new_events_refl (w : world) : new_events w w = [].
Proof. unfold new_events. by rewrite drop_all. Qed.

Lemma new_events_app (w w' : world) (evs : list event) :
  trace w' = trace w ++ evs -> new_events w w' = evs.
Proof. unfold new_events. intros ->. by rewrite drop_app_length. Qed.

(** ** Loading and saving *)

Section LoadSave.

Implicit Types (w : world) (ts items : list value).

(** A readable file that holds a JSON list: the comprehension runs over
    its entries and nothing is printed. *)
Lemma load_tasks_list w items :
  file w = Some (JsonText (VList items)) -> readable w ->
  load_tasks w = (Ret (filter task_shaped items), emit (EvOpen ModeR) w).
Proof.
  unfold readable, load_tasks, load_tasks_body, path_exists, open_read.
  simpl. intros -> ->. simpl. by rewrite filter_is_valid_task.
Qed.







(** The slip in the [except] clause: [UnicodeDecodeError] is none of the
    three classes it names, so a file that is not UTF-8 makes
    [load_tasks] raise. *)
Lemma load_tasks_not_utf8 w :
  file w = Some NotUtf8 -> readable w ->
  load_tasks w = (Raise UnicodeDecodeError, emit (EvOpen ModeR) w).
Proof.
  unfold readable, load_tasks, load_tasks_body, path_exists, open_read.
  simpl. by intros -> ->.
Qed.

Lemma printed_emit_open w m : printed w (emit (EvOpen m) w) = [].
Proof. unfold printed. by rewrite new_events_emit. Qed.

Lemma printed_refl w : printed w w = [].
Proof. unfold printed. by rewrite new_events_refl. Qed.


(** A save in a working file system leaves the serialization of the
    sequence in the file. *)
Lemma save_tasks_writable ts w :
  writable w ->
  save_tasks ts w = set_file (Some (serialization ts)) (emit (EvOpen ModeW) w).
Proof. unfold writable, save_tasks. simpl. by intros [-> ->]. Qed.

Lemma save_tasks_file ts w :
  writable w -> file (save_tasks ts w) = Some (serialization ts).
Proof. intros Hw. by rewrite save_tasks_writable. Qed.




End LoadSave.





(** C4. Filter on load: from a readable file that holds a JSON list,
    [load_tasks] returns the entries that are task records, in their
    order, and prints nothing about the others. *)
Theorem load_tasks_filters (w : world) (items : list value) :
  file w = Some (JsonText (VList items)) -> readable w ->
  fst (load_tasks w) = Ret (filter task_shaped items) /\
  printed w (snd (load_tasks w)) = [].
Proof.
  intros Hf Hr. rewrite (load_tasks_list _ _ Hf Hr). simpl.
  split; [done|]. apply printed_emit_open.
Qed.

Lemma load_tasks_filters_witness :
  file (disk (Some (JsonText (VList doc_filter)))) =
    Some (JsonText (VList doc_filter)) /\
  readable (disk (Some (JsonText (VList doc_filter)))) /\
  fst (load_tasks (disk (Some (JsonText (VList doc_filter))))) =
    Ret [task "x" false] /\
  printed (disk (Some (JsonText (VList doc_filter))))
          (snd (load_tasks (disk (Some (JsonText (VList doc_filter)))))) = [].
Proof.
  split; [reflexivity|]. split; [reflexivity|].
  exact (load_tasks_filters (disk (Some (JsonText (VList doc_filter)))) doc_filter
           eq_refl eq_refl).
Defined.

(** ** The heap *)

Section Heap.

Implicit Types (h : list value) (l x y : loc) (ls : list loc) (o : value).

Lemma deref_alloc_old h o l : l < length h -> deref (h ++ [o]) l = deref h l.
Proof. apply lookup_total_app_l. Qed.

Lemma deref_alloc_new h o : deref (h ++ [o]) (length h) = o.
Proof.
  unfold deref. rewrite lookup_total_app_r by lia. by rewrite Nat.sub_diag.
Qed.

Lemma objects_alloc h o ls :
  Forall (fun l => l < length h) ls -> objects (h ++ [o]) ls = objects h ls.
Proof.
  unfold objects. induction 1 as [|l ls Hl _ IH]; [done|].
  rewrite !fmap_cons, IH. by rewrite deref_alloc_old.
Qed.



Lemma objects_middle h l pre post :
  objects h (pre ++ l :: post) = objects h pre ++ deref h l :: objects h post.
Proof. unfold objects. by rewrite fmap_app, fmap_cons. Qed.

(** After start-up the heap holds the loaded records, and the task list
    refers to them in their order. *)
Lemma objects_seq h : objects h (seq 0 (length h)) = h.
Proof.
  apply list_eq. intros i. unfold objects. rewrite list_lookup_fmap.
  destruct (decide (i < length h)) as [Hi|Hi].
  - rewrite lookup_seq_lt by done. simpl. unfold deref.
    by rewrite <- list_lookup_lookup_total_lt.
  - rewrite lookup_seq_ge by lia. simpl. symmetry. apply lookup_ge_None. lia.
Qed.

Lemma elem_of_objects h ls l : l ∈ ls -> deref h l ∈ objects h ls.
Proof. apply list_elem_of_fmap_2. Qed.

(** The widgets can be built when every task has both fields. *)
Lemma build_widgets_shaped h ls :
  Forall task_shaped (objects h ls) -> build_widgets h ls = Ret (MkTaskItem <$> ls).
Proof.
  unfold objects. induction ls as [|l ls IH]; [done|].
  rewrite fmap_cons, Forall_cons. intros [Hl Hls]. simpl.
  rewrite (IH Hls). unfold TaskItem_init.
  destruct (deref h l) as [| | | | |d]; try done.
  destruct Hl as [[v1 Hd] [v2 Hc]]. simpl. by rewrite Hc, Hd.
Qed.

End Heap.

(** ** Removing from a list *)

Section ListRemove.

Variable h : list value.
Variable x : loc.

Lemma is_or_eq_self : is_or_eq h x x = true.
Proof. unfold is_or_eq. by rewrite Nat.eqb_refl. Qed.

(** [list.remove] drops the first item that passes its test and keeps
    the others in their order. *)
Lemma list_remove_first (pre post : list loc) (y : loc) :
  Forall (differs h x) pre -> is_or_eq h x y = true ->
  list_remove h x (pre ++ y :: post) = Ret (pre ++ post).
Proof.
  intros Hpre Hy. induction Hpre as [|z pre Hz _ IH]; simpl.
  - by rewrite Hy.
  - rewrite Hz. by rewrite IH.
Qed.

Lemma list_remove_absent (ls : list loc) :
  Forall (differs h x) ls -> list_remove h x ls = Raise ValueError.
Proof.
  induction 1 as [|z ls Hz _ IH]; simpl; [done|].
  by rewrite Hz, IH.
Qed.

(** Every list either has a first item that passes the test, or none. *)
Lemma first_match_or_none (ls : list loc) :
  (exists pre y post,
      ls = pre ++ y :: post /\ Forall (differs h x) pre /\ is_or_eq h x y = true)
  \/ Forall (differs h x) ls.
Proof.
  induction ls as [|z ls IH].
  - right. constructor.
  - destruct (is_or_eq h x z) eqn:Hz.
    + left. exists [], z, ls. repeat split; [constructor | done].
    + destruct IH as [(pre & y & post & -> & Hpre & Hy)|Hnone].
      * left. exists (z :: pre), y, post. repeat split; [by constructor | done].
      * right. by constructor.
Qed.


End ListRemove.

(** ** The operations and the invariant *)

Section Operations.

Implicit Types (st : state) (w : world) (l : loc) (self : TaskItem).

Lemma truthy_str_spec (s : string) : truthy_str s = true <-> s <> "".
Proof. destruct s; simpl; split; congruence. Qed.

Lemma refresh_tasks_ui_shaped st :
  Forall task_shaped (task_objects st) ->
  refresh_tasks_ui st = Ret (set_task_list_layout (MkTaskItem <$> tasks st) st).
Proof.
  intros H. unfold refresh_tasks_ui. by rewrite build_widgets_shaped.
Qed.

(** Whatever the file, what [load_tasks] returns is task-shaped. *)
Lemma load_tasks_shaped w loaded w' :
  load_tasks w = (Ret loaded, w') -> Forall task_shaped loaded.
Proof.
  unfold load_tasks. destruct (negb (path_exists w)).
  { intros [= <- _]. constructor. }
  destruct (load_tasks_body _) as [valid|e] eqn:Hbody.
  - intros [= <- _]. unfold load_tasks_body in Hbody.
    destruct (open_read _) as [c|]; [simpl in Hbody|done].
    destruct (json_load c) as [data|]; [simpl in Hbody|done].
    destruct (py_iter data) as [items|]; [simpl in Hbody|done].
    injection Hbody as <-. rewrite filter_is_valid_task.
    apply Forall_forall. by intros o [Ho _]%list_elem_of_filter.
  - destruct (existsb _ _); intros [= <- _]. constructor.
Qed.

(** Start-up: the heap is the loaded sequence. *)
Lemma build_loaded w loaded w' :
  load_tasks w = (Ret loaded, w') ->
  build w = Ret (State loaded w' (seq 0 (length loaded)) ""
                       (MkTaskItem <$> seq 0 (length loaded))).
Proof.
  intros Hload. unfold build. rewrite Hload.
  rewrite refresh_tasks_ui_shaped; [done|].
  unfold task_objects. simpl. rewrite objects_seq.
  by eapply load_tasks_shaped.
Qed.

Lemma build_raises w e w' : load_tasks w = (Raise e, w') -> build w = Raise e.
Proof. intros Hload. unfold build. by rewrite Hload. Qed.


Lemma build_inv w st : build w = Ret st -> inv st.
Proof.
  destruct (load_tasks w) as [[loaded|e] w'] eqn:Hload.
  - rewrite (build_loaded _ _ _ Hload). intros [= <-]. split; simpl.
    + apply NoDup_seq.
    + apply Forall_seq. intros; lia.
    + unfold task_objects. simpl. rewrite objects_seq.
      by eapply load_tasks_shaped.
    + done.
  - by rewrite (build_raises _ _ _ Hload).
Qed.

(** *** Adding *)

Lemma task_is_shaped (s : string) (b : bool) : task_shaped (task s b).
Proof. split; unfold has_field; simpl; eauto. Qed.

(** A new object at the front of the list comes first in the sequence. *)
Lemma task_objects_alloc st (o : value) w (input : string) (ws : list TaskItem) :
  Forall (fun l => l < length (heap st)) (tasks st) ->
  task_objects (State (heap st ++ [o]) w (length (heap st) :: tasks st) input ws)
  = o :: task_objects st.
Proof.
  intros Halloc. unfold task_objects. simpl.
  by rewrite deref_alloc_new, (objects_alloc _ _ _ Halloc).
Qed.

Lemma add_blank (s : string) st :
  strip s = "" -> add s st = Ret (set_task_input s st).
Proof. unfold add, add_task_from_input. simpl. by intros ->. Qed.

Lemma add_nonblank (s : string) st :
  inv st -> strip s <> "" ->
  add s st =
    Ret (State (heap st ++ [task (strip s) false])
               (save_tasks (task (strip s) false :: task_objects st) (io st))
               (length (heap st) :: tasks st) ""
               (MkTaskItem <$> length (heap st) :: tasks st)).
Proof.
  intros Hinv Hs. apply truthy_str_spec in Hs.
  unfold add, add_task_from_input, add_new_task. simpl. rewrite Hs.
  assert (Hobj : deref (heap st ++ [task (strip s) false]) (length (heap st))
                 :: objects (heap st ++ [task (strip s) false]) (tasks st)
                 = task (strip s) false :: task_objects st).
  { by rewrite deref_alloc_new, (objects_alloc _ _ _ (inv_alloc _ Hinv)). }
  change (VDict [("description", VStr (strip s)); ("completed", VBool false)])
    with (task (strip s) false).
  rewrite refresh_tasks_ui_shaped.
  - unfold save_all_tasks, task_objects at 1 2. simpl. by rewrite Hobj.
  - unfold task_objects at 1. simpl. rewrite Hobj.
    constructor; [apply task_is_shaped | apply (inv_shape _ Hinv)].
Qed.

Lemma add_inv (s : string) st st' : inv st -> add s st = Ret st' -> inv st'.
Proof.
  intros Hinv. destruct (decide (strip s = "")) as [Hs|Hs].
  - rewrite (add_blank _ _ Hs). intros [= <-]. by destruct Hinv.
  - rewrite (add_nonblank _ _ Hinv Hs). intros [= <-].
    destruct Hinv as [Hnodup Halloc Hshape Hlayout]. split; simpl.
    + apply NoDup_cons. split; [|done].
      intros Hin. rewrite Forall_forall in Halloc.
      specialize (Halloc _ Hin). lia.
    + rewrite length_app. simpl. constructor; [lia|].
      eapply Forall_impl; [exact Halloc|]. simpl. intros; lia.
    + rewrite (task_objects_alloc _ _ _ _ _ Halloc).
      constructor; [apply task_is_shaped | exact Hshape].
    + done.
Qed.

(** *** Deleting *)

Lemma delete_task_found (x : loc) st (pre post : list loc) (y : loc) :
  inv st -> tasks st = pre ++ y :: post ->
  Forall (differs (heap st) x) pre -> is_or_eq (heap st) x y = true ->
  delete_task x st =
    Ret (State (heap st)
               (save_tasks (objects (heap st) (pre ++ post)) (io st))
               (pre ++ post) (task_input st) (MkTaskItem <$> pre ++ post)).
Proof.
  intros Hinv Htasks Hpre Hy. unfold delete_task.
  rewrite Htasks, (list_remove_first _ _ _ _ _ Hpre Hy). simpl.
  rewrite refresh_tasks_ui_shaped; [done|].
  unfold task_objects. simpl.
  pose proof (inv_shape _ Hinv) as Hshape. unfold task_objects in Hshape.
  rewrite Htasks, objects_middle in Hshape. unfold objects. rewrite fmap_app.
  apply Forall_app in Hshape as [Hs1 Hs2]. apply Forall_cons in Hs2 as [_ Hs2].
  by apply Forall_app.
Qed.

Lemma delete_task_absent (x : loc) st :
  Forall (differs (heap st) x) (tasks st) ->
  delete_task x st = Ret (set_io (print TaskNotFound (io st)) st).
Proof.
  intros Habs. unfold delete_task. by rewrite (list_remove_absent _ _ _ Habs).
Qed.

Lemma delete_task_inv (x : loc) st st' :
  inv st -> delete_task x st = Ret st' -> inv st'.
Proof.
  intros Hinv.
  destruct (first_match_or_none (heap st) x (tasks st))
    as [(pre & y & post & Htasks & Hpre & Hy)|Habs].
  - rewrite (delete_task_found _ _ _ _ _ Hinv Htasks Hpre Hy). intros [= <-].
    destruct Hinv as [Hnodup Halloc Hshape Hlayout].
    unfold task_objects in Hshape. rewrite Htasks in *.
    rewrite objects_middle in Hshape.
    apply Forall_app in Hshape as [Hs1 Hs2]. apply Forall_cons in Hs2 as [_ Hs2].
    apply Forall_app in Halloc as [Ha1 Ha2]. apply Forall_cons in Ha2 as [_ Ha2].
    apply NoDup_app in Hnodup as (Hn1 & Hn12 & Hn2).
    apply NoDup_cons in Hn2 as [_ Hn2].
    split; simpl.
    + apply NoDup_app. split; [done|]. split; [|done].
      intros z Hz Hz'. apply (Hn12 z Hz). by apply list_elem_of_further.
    + by apply Forall_app.
    + unfold task_objects. simpl. unfold objects. rewrite fmap_app.
      by apply Forall_app.
    + done.
  - rewrite (delete_task_absent _ _ Habs). intros [= <-]. by destruct Hinv.
Qed.

(** *** Setting the completed flag *)

(** The task of a widget on the screen is in the list, alive, and
    task-shaped. *)
Lemma widget_task st self :
  inv st -> self ∈ task_list_layout st ->
  task_data self ∈ tasks st /\ task_data self < length (heap st) /\
  exists d, deref (heap st) (task_data self) = VDict d /\
            has_field d "description" /\ has_field d "completed".
Proof.
  intros [Hnodup Halloc Hshape Hlayout]. rewrite Hlayout.
  intros (l & -> & Hl)%list_elem_of_fmap. simpl.
  split; [done|]. rewrite Forall_forall in Halloc. rewrite Forall_forall in Hshape.
  split; [by apply Halloc|].
  specialize (Hshape _ (elem_of_objects (heap st) _ _ Hl)).
  destruct (deref (heap st) l) as [| | | | |d]; try done. by exists d.
Qed.

Lemma on_checkbox_active_dict self (b : bool) st (d : list (string * value)) :
  task_data self < length (heap st) ->
  deref (heap st) (task_data self) = VDict d -> has_field d "description" ->
  on_checkbox_active self b st =
    Ret (save_all_tasks
           (set_heap (<[task_data self :=
                         VDict (Dict.set d "completed" (VBool b))]> (heap st))
                     st)).
Proof.
  intros Hl Hd [v Hv]. unfold on_checkbox_active. rewrite Hd. simpl.
  unfold deref at 1. rewrite list_lookup_total_insert_eq by done. simpl.
  rewrite get_set_ne by done. by rewrite Hv.
Qed.

Lemma on_checkbox_active_inv self (b : bool) st st' :
  inv st -> self ∈ task_list_layout st ->
  on_checkbox_active self b st = Ret st' -> inv st'.
Proof.
  intros Hinv Hself.
  destruct (widget_task _ _ Hinv Hself) as (Hin & Hl & d & Hd & Hdesc & Hcomp).
  rewrite (on_checkbox_active_dict _ _ _ _ Hl Hd Hdesc). intros [= <-].
  destruct Hinv as [Hnodup Halloc Hshape Hlayout]. split; simpl; try done.
  - by rewrite length_insert.
  - unfold task_objects in *. simpl. unfold objects in *.
    rewrite Forall_fmap in Hshape |- *.
    eapply Forall_impl; [exact Hshape|]. simpl. intros l' Hl'.
    unfold deref. rewrite list_lookup_total_insert. case_decide; [|done].
    split; [by apply has_field_set | apply has_field_set_eq].
Qed.

Lemma step_inv (o : op) st st' :
  inv st -> enabled o st -> step o st = Ret st' -> inv st'.
Proof.
  destruct o as [s|self|self value]; simpl; intros Hinv Hen.
  - by apply add_inv.
  - by apply delete_task_inv.
  - by apply on_checkbox_active_inv.
Qed.

Lemma reachable_inv st : reachable st -> inv st.
Proof.
  induction 1 as [w st Hbuild|o st st' _ IH Hen Hstep].
  - by eapply build_inv.
  - by eapply step_inv.
Qed.

End Operations.

(** ** Sample states *)

Lemma st_two_reachable : reachable st_two.
Proof.
  apply (reachable_step (Add "Call mom")
           (State [task "Buy milk" false]
                  (World (Some (serialization [task "Buy milk" false]))
                         true true true [EvOpen ModeW])
                  [0] "" [MkTaskItem 0])); [|exact I|reflexivity].
  apply (reachable_step (Add "Buy milk") (State [] (disk None) [] "" []));
    [|exact I|reflexivity].
  by apply (reachable_build (disk None)).
Qed.

Lemma st_two_inv : inv st_two.
Proof. apply reachable_inv, st_two_reachable. Qed.

Lemma st_yes_built : build (disk (Some (JsonText (VList [rec_yes])))) = Ret st_yes.
Proof. reflexivity. Qed.

(** ** Adding a task *)

(** C2. Adding: when the typed text is not blank, a new task with the
    stripped text and completed = false is put at position 0, before the
    tasks that were there, and the new sequence is saved; when the text is
    blank, the sequence and the file stay as they are. *)
Theorem add_inserts_first_and_saves (s : string) (st : state) :
  inv st ->
  (strip s <> "" ->
     exists st', add s st = Ret st' /\
       task_objects st' = task (strip s) false :: task_objects st /\
       tasks st' = length (heap st) :: tasks st /\
       io st' = save_tasks (task_objects st') (io st)) /\
  (strip s = "" ->
     exists st', add s st = Ret st' /\
       task_objects st' = task_objects st /\
       tasks st' = tasks st /\ heap st' = heap st /\ io st' = io st).
Proof.
  intros Hinv. split; intros Hs.
  - rewrite (add_nonblank _ _ Hinv Hs). eexists. split; [done|].
    by rewrite (task_objects_alloc _ _ _ _ _ (inv_alloc _ Hinv)).
  - rewrite (add_blank _ _ Hs). eexists. split; [done|]. done.
Qed.

Lemma add_inserts_first_and_saves_witness :
  inv st_two /\
  (exists st', add "  Pay rent " st_two = Ret st' /\
     task_objects st' =
       [task "Pay rent" false; task "Call mom" false; task "Buy milk" false]) /\
  (exists st', add "   " st_two = Ret st' /\
     task_objects st' = [task "Call mom" false; task "Buy milk" false]).
Proof.
  pose proof (add_inserts_first_and_saves "  Pay rent " st_two st_two_inv) as [H1 _].
  pose proof (add_inserts_first_and_saves "   " st_two st_two_inv) as [_ H2].
  split; [exact st_two_inv|]. split.
  - destruct H1 as (st' & Hadd & Hobj & _); [discriminate|]. by exists st'.
  - destruct H2 as (st' & Hadd & Hobj & _); [reflexivity|]. by exists st'.
Defined.

(** The add semantics of the specification, from a first start. *)
Example add_semantics :
  exists st0 st1 st2 st3,
    build (disk None) = Ret st0 /\ task_objects st0 = [] /\
    add "Buy milk" st0 = Ret st1 /\ task_objects st1 = [task "Buy milk" false] /\
    add "  " st1 = Ret st2 /\ task_objects st2 = [task "Buy milk" false] /\
    add "Call mom" st2 = Ret st3 /\
    task_objects st3 = [task "Call mom" false; task "Buy milk" false].
Proof. repeat eexists. Qed.

(** ** Deleting a task *)

(** C5. Deleting: when the sequence has an item that is the given task or
    equals it, the first such item is removed, the others keep their
    order, and the new sequence is saved; when it has none, the sequence
    stays as it is, the condition is printed and no save runs. Either way
    the call returns. *)
Theorem delete_task_removes_first_equal (x : loc) (st : state) :
  inv st ->
  (forall pre y post,
     tasks st = pre ++ y :: post ->
     Forall (differs (heap st) x) pre -> is_or_eq (heap st) x y = true ->
     exists st', delete_task x st = Ret st' /\
       tasks st' = pre ++ post /\ heap st' = heap st /\
       task_objects st' = objects (heap st) pre ++ objects (heap st) post /\
       io st' = save_tasks (task_objects st') (io st)) /\
  (Forall (differs (heap st) x) (tasks st) ->
     exists st', delete_task x st = Ret st' /\
       tasks st' = tasks st /\ heap st' = heap st /\
       task_objects st' = task_objects st /\
       printed (io st) (io st') = [TaskNotFound] /\
       ~ save_invoked (io st) (io st')) /\
  (exists st', delete_task x st = Ret st').
Proof.
  intros Hinv. split; [|split].
  - intros pre y post Htasks Hpre Hy.
    rewrite (delete_task_found _ _ _ _ _ Hinv Htasks Hpre Hy).
    eexists. split; [done|]. unfold task_objects, objects. simpl.
    by rewrite fmap_app.
  - intros Habs. rewrite (delete_task_absent _ _ Habs).
    eexists. split; [done|]. simpl. unfold print. repeat split; try done.
    + unfold printed. by rewrite new_events_emit.
    + unfold save_invoked. rewrite new_events_emit.
      intros Hin. apply list_elem_of_singleton in Hin. discriminate.
  - destruct (first_match_or_none (heap st) x (tasks st))
      as [(pre & y & post & Htasks & Hpre & Hy)|Habs].
    + rewrite (delete_task_found _ _ _ _ _ Hinv Htasks Hpre Hy). eauto.
    + rewrite (delete_task_absent _ _ Habs). eauto.
Qed.

Lemma delete_task_removes_first_equal_witness :
  inv st_two /\
  exists st', delete_task 1 st_two = Ret st' /\
    task_objects st' = [task "Buy milk" false].
Proof.
  split; [exact st_two_inv|].
  destruct (delete_task_removes_first_equal 1 st_two st_two_inv) as [Hfound _].
  destruct (Hfound [] 1 [0] eq_refl (List.Forall_nil _) eq_refl)
    as (st' & Hdel & _ & _ & Hobj & _).
  by exists st'.
Defined.

(** The delete semantics of the specification: of two tasks the first is
    deleted through its own reference; an object that equals no task of the
    sequence leaves it as it is. *)
Example delete_semantics :
  (exists st', delete_task 1 st_two = Ret st' /\
     task_objects st' = [task "Buy milk" false]) /\
  (exists st', delete_task 2 (set_heap (heap st_two ++ [task "Pay rent" false]) st_two)
                 = Ret st' /\
     task_objects st' = [task "Call mom" false; task "Buy milk" false] /\
     printed (io st_two) (io st') = [TaskNotFound]).
Proof. split; eexists; repeat split. Qed.

(** ** Setting the completed flag *)

Section SetCompleted.

Variables (self : TaskItem) (st : state) (d : list (string * value)).
Hypothesis Hlive : task_data self < length (heap st).
Hypothesis Hdict : deref (heap st) (task_data self) = VDict d.
Hypothesis Hdesc : has_field d "description".




End SetCompleted.




(** The toggle semantics of the specification. *)
Example toggle_semantics :
  let st0 := State [task "Buy milk" false] (disk None) [0] "" [MkTaskItem 0] in
  exists st1 st2,
    on_checkbox_active (MkTaskItem 0) true st0 = Ret st1 /\
    task_objects st1 = [task "Buy milk" true] /\
    on_checkbox_active (MkTaskItem 0) false st1 = Ret st2 /\
    task_objects st2 = [task "Buy milk" false].
Proof. repeat eexists. Qed.

(** ** Every mutation saves *)

Section Saving.

Implicit Types (st : state) (o : op).

Lemma step_returns o st :
  inv st -> enabled o st -> exists st', step o st = Ret st'.
Proof.
  intros Hinv Hen. destruct o as [s|self|self b]; simpl in *.
  - destruct (decide (strip s = "")) as [Hs|Hs].
    + rewrite (add_blank _ _ Hs). eauto.
    + rewrite (add_nonblank _ _ Hinv Hs). eauto.
  - unfold TaskItem_delete_task.
    destruct (first_match_or_none (heap st) (task_data self) (tasks st))
      as [(pre & y & post & Htasks & Hpre & Hy)|Habs].
    + rewrite (delete_task_found _ _ _ _ _ Hinv Htasks Hpre Hy). eauto.
    + rewrite (delete_task_absent _ _ Habs). eauto.
  - destruct (widget_task _ _ Hinv Hen) as (_ & Hl & d & Hd & Hdesc & _).
    rewrite (on_checkbox_active_dict _ _ _ _ Hl Hd Hdesc). eauto.
Qed.


End Saving.



(** ** The invariant of the collection *)

(** C8. In every state that a run reaches (start-up, then additions,
    deletions and changes of the completed flag), every record of the
    collection has a description and a completed field. *)
Theorem reachable_tasks_have_both_fields (st : state) :
  reachable st -> Forall task_shaped (task_objects st).
Proof. intros Hreach. apply inv_shape. by apply reachable_inv. Qed.

Lemma reachable_tasks_have_both_fields_witness :
  reachable st_two /\ Forall task_shaped (task_objects st_two).
Proof.
  split; [exact st_two_reachable|].
  exact (reachable_tasks_have_both_fields st_two st_two_reachable).
Defined.

(** A run never stops on a missing field: from a reachable state every
    operation on offer returns. *)
Lemma reachable_step_returns (o : op) (st : state) :
  reachable st -> enabled o st -> exists st', step o st = Ret st'.
Proof. intros Hreach. apply step_returns. by apply reachable_inv. Qed.

(** ** Fields that the program does not know *)



(** ** Fields of any type *)



(** * Further properties of the task store *)

(** ** What a load and a save leave of the world *)

Section WorldFacts.

Implicit Types (w : world) (ts : list value).

Lemma save_tasks_open_w_ok ts w : open_w_ok (save_tasks ts w) = open_w_ok w.
Proof.
  unfold save_tasks. simpl.
  destruct (open_w_ok w) eqn:Ho; simpl; [|done].
  by destruct (write_ok w) eqn:Hw.
Qed.

Lemma save_tasks_write_ok ts w : write_ok (save_tasks ts w) = write_ok w.
Proof.
  unfold save_tasks. simpl.
  destruct (open_w_ok w) eqn:Ho; simpl; [|done].
  by destruct (write_ok w) eqn:Hw.
Qed.

Lemma save_tasks_keeps_writable ts w : writable w -> writable (save_tasks ts w).
Proof.
  unfold writable. by rewrite save_tasks_open_w_ok, save_tasks_write_ok.
Qed.


(** What [load_tasks] returns depends on the file and on whether it can
    be read, and on nothing else. *)
Lemma load_tasks_result_ext w1 w2 :
  file w1 = file w2 -> read_ok w1 = read_ok w2 ->
  fst (load_tasks w1) = fst (load_tasks w2).
Proof.
  unfold load_tasks, load_tasks_body, path_exists, open_read. simpl.
  intros -> ->. destruct (file w2) as [c|]; [|done]. simpl.
  destruct (read_ok w2); simpl; [|done].
  destruct (json_load c) as [data|e]; simpl.
  - destruct (py_iter data) as [items|e]; simpl; [done|]. by destruct e.
  - by destruct e.
Qed.

(** The world after a load: as before, but for the note that the file was
    opened for reading and, at most, one printed line. *)
Lemma load_tasks_world w :
  snd (load_tasks w) = w \/
  snd (load_tasks w) = emit (EvOpen ModeR) w \/
  exists e, snd (load_tasks w) = print (LoadFailed e) (emit (EvOpen ModeR) w).
Proof.
  unfold load_tasks. destruct (negb (path_exists w)); [by left|].
  destruct (load_tasks_body _) as [valid|e]; [by right; left|].
  destruct (existsb _ _); [right; right; by exists e | by right; left].
Qed.


End WorldFacts.

(** ** Loading *)


(** X2. [load_tasks] only reads: the file and the state of the file system
    are as before, the file was not opened for writing, and a second load
    returns what the first one returned. *)
Theorem load_tasks_only_reads (w : world) :
  file (snd (load_tasks w)) = file w /\
  read_ok (snd (load_tasks w)) = read_ok w /\
  open_w_ok (snd (load_tasks w)) = open_w_ok w /\
  write_ok (snd (load_tasks w)) = write_ok w /\
  ~ save_invoked w (snd (load_tasks w)) /\
  fst (load_tasks (snd (load_tasks w))) = fst (load_tasks w).
Proof.
  assert (Hsame : file (snd (load_tasks w)) = file w /\
                  read_ok (snd (load_tasks w)) = read_ok w /\
                  open_w_ok (snd (load_tasks w)) = open_w_ok w /\
                  write_ok (snd (load_tasks w)) = write_ok w).
  { destruct (load_tasks_world w) as [->|[->|[e ->]]]; done. }
  destruct Hsame as (Hf & Hr & Ho & Hw). repeat split; try done.
  - unfold save_invoked.
    destruct (load_tasks_world w) as [->|[->|[e ->]]].
    + rewrite new_events_refl. apply not_elem_of_nil.
    + rewrite new_events_emit. intros Hin.
      apply list_elem_of_singleton in Hin. discriminate.
    + rewrite (new_events_app _ _ [EvOpen ModeR; EvPrint (LoadFailed e)]).
      * intros Hin. apply elem_of_cons in Hin as [Hin|Hin]; [discriminate|].
        apply list_elem_of_singleton in Hin. discriminate.
      * simpl. by rewrite <- app_assoc.
  - by apply load_tasks_result_ext.
Qed.

(** ** Persistence across runs *)





(** ** The widgets *)

Section Widgets.

Implicit Types (h : list value) (l : loc) (ls : list loc).





End Widgets.




(** ** Deleting by equality *)

Lemma st_dup_reachable : reachable st_dup.
Proof.
  apply (reachable_step (Add "Buy milk")
           (State [task "Buy milk" false]
                  (World (Some (serialization [task "Buy milk" false]))
                         true true true [EvOpen ModeW])
                  [0] "" [MkTaskItem 0])); [|exact I|reflexivity].
  apply (reachable_step (Add "Buy milk") (State [] (disk None) [] "" []));
    [|exact I|reflexivity].
  by apply (reachable_build (disk None)).
Qed.

Lemma st_dup_inv : inv st_dup.
Proof. apply reachable_inv, st_dup_reachable. Qed.

(** X7. [delete_task] deletes by equality: when an earlier entry of the
    list equals the given task, that earlier entry is the one removed, and
    the given task stays in the list. *)
Theorem delete_task_removes_earlier_equal
    (x : loc) (st : state) (pre mid post : list loc) (y : loc) :
  inv st ->
  tasks st = pre ++ y :: mid ++ x :: post ->
  Forall (differs (heap st) x) pre ->
  py_eq (deref (heap st) y) (deref (heap st) x) = true ->
  exists st', delete_task x st = Ret st' /\
    tasks st' = pre ++ mid ++ x :: post /\
    x ∈ tasks st' /\ y ∉ tasks st'.
Proof.
  intros Hinv Htasks Hpre Heq.
  assert (Hy : is_or_eq (heap st) x y = true).
  { unfold is_or_eq. rewrite Heq. apply orb_true_r. }
  rewrite (delete_task_found _ _ _ _ _ Hinv Htasks Hpre Hy).
  eexists. split; [done|]. simpl. split; [done|]. split.
  - apply elem_of_app. right. apply elem_of_app. right.
    apply list_elem_of_here.
  - pose proof (inv_nodup _ Hinv) as Hnodup. rewrite Htasks in Hnodup.
    apply NoDup_app in Hnodup as (_ & Hdisj & Hrest).
    apply NoDup_cons in Hrest as [Hy' _].
    intros [Hin|Hin]%elem_of_app; [|done].
    apply (Hdisj _ Hin). apply list_elem_of_here.
Qed.

Lemma delete_task_removes_earlier_equal_witness :
  inv st_dup /\
  exists st', delete_task 0 st_dup = Ret st' /\ tasks st' = [0].
Proof.
  split; [exact st_dup_inv|].
  destruct (delete_task_removes_earlier_equal 0 st_dup [] [] [] 1
              st_dup_inv eq_refl (List.Forall_nil _) eq_refl)
    as (st' & Hdel & Htasks & _).
  by exists st'.
Defined.

(** X8. When no other task of the list equals the given one,
    [delete_task] removes the given task itself and nothing else. *)
Theorem delete_task_removes_the_task (x : loc) (st : state) :
  inv st -> x ∈ tasks st ->
  (forall y, y ∈ tasks st -> y <> x ->
             py_eq (deref (heap st) y) (deref (heap st) x) = false) ->
  exists st' pre post,
    tasks st = pre ++ x :: post /\
    delete_task x st = Ret st' /\
    tasks st' = pre ++ post /\ x ∉ tasks st'.
Proof.
  intros Hinv Hin Huniq.
  destruct (list_elem_of_split _ _ Hin) as (pre & post & Htasks).
  pose proof (inv_nodup _ Hinv) as Hnodup. rewrite Htasks in Hnodup.
  apply NoDup_app in Hnodup as (_ & Hdisj & Hrest).
  apply NoDup_cons in Hrest as [Hpost _].
  assert (Hpre : Forall (differs (heap st) x) pre).
  { apply Forall_forall. intros y Hy. unfold differs, is_or_eq.
    assert (Hne : y <> x).
    { intros ->. apply (Hdisj _ Hy). apply list_elem_of_here. }
    rewrite Huniq; [|rewrite Htasks; apply elem_of_app; by left|done].
    rewrite orb_false_r. by apply Nat.eqb_neq. }
  rewrite (delete_task_found _ _ _ _ _ Hinv Htasks Hpre (is_or_eq_self _ _)).
  eexists _, pre, post. split; [done|]. split; [done|]. simpl. split; [done|].
  intros [Hx|Hx]%elem_of_app; [|done].
  apply (Hdisj _ Hx). apply list_elem_of_here.
Qed.

Lemma delete_task_removes_the_task_witness :
  inv st_two /\ 0 ∈ tasks st_two /\
  exists st', delete_task 0 st_two = Ret st' /\ 0 ∉ tasks st'.
Proof.
  assert (Hin : 0 ∈ tasks st_two).
  { apply list_elem_of_further, list_elem_of_here. }
  assert (Huniq : forall y, y ∈ tasks st_two -> y <> 0 ->
            py_eq (deref (heap st_two) y) (deref (heap st_two) 0) = false).
  { intros y Hy Hne. simpl in Hy.
    apply elem_of_cons in Hy as [->|Hy]; [reflexivity|].
    apply list_elem_of_singleton in Hy. contradiction. }
  split; [exact st_two_inv|]. split; [exact Hin|].
  destruct (delete_task_removes_the_task 0 st_two st_two_inv Hin Huniq)
    as (st' & pre & post & _ & Hdel & _ & Hout).
  by exists st'.
Defined.



(** X10. Adding a task and deleting it again gives back the sequence, in
    memory and, when the saves succeed, in the file. *)
Theorem add_then_delete (s : string) (st : state) :
  inv st -> strip s <> "" ->
  exists st1 st2,
    add s st = Ret st1 /\
    delete_task (length (heap st)) st1 = Ret st2 /\
    tasks st2 = tasks st /\
    task_objects st2 = task_objects st /\
    (writable (io st) ->
       file (io st2) = Some (serialization (task_objects st))).
Proof.
  intros Hinv Hs.
  pose proof (add_nonblank s st Hinv Hs) as Hadd.
  pose proof (add_inv _ _ _ Hinv Hadd) as Hinv1.
  eexists _, _. split; [exact Hadd|].
  rewrite (delete_task_found _ _ [] (tasks st) (length (heap st)) Hinv1 eq_refl
             (List.Forall_nil _) (is_or_eq_self _ _)).
  split; [done|]. simpl. split; [done|].
  unfold task_objects at 1. simpl.
  rewrite (objects_alloc _ _ _ (inv_alloc _ Hinv)). split; [done|].
  intros Hw. rewrite save_tasks_file; [done|].
  by apply save_tasks_keeps_writable.
Qed.

Lemma add_then_delete_witness :
  inv st_two /\
  exists st1 st2,
    add "Pay rent" st_two = Ret st1 /\
    delete_task 2 st1 = Ret st2 /\
    task_objects st2 = [task "Call mom" false; task "Buy milk" false].
Proof.
  split; [exact st_two_inv|].
  assert (Hs : strip "Pay rent" <> "") by discriminate.
  destruct (add_then_delete "Pay rent" st_two st_two_inv Hs)
    as (st1 & st2 & Hadd & Hdel & _ & Hobj & _).
  by exists st1, st2.
Defined.

(** ** The text of a new task *)

Section Strip.

Implicit Types (s : string).

Lemma lstrip_no_leading_space s : starts_with_space (lstrip s) = false.
Proof.
  induction s as [|c s IH]; [done|]. simpl.
  destruct (isspace c) eqn:Hc; [exact IH|]. simpl. exact Hc.
Qed.

Lemma rstrip_keeps_head s :
  starts_with_space s = false -> starts_with_space (rstrip s) = false.
Proof.
  destruct s as [|c s]; [done|]. simpl. intros Hc.
  destruct (rstrip s); simpl; [by rewrite Hc|done].
Qed.

Lemma rstrip_no_trailing_space s : ends_with_space (rstrip s) = false.
Proof.
  induction s as [|c s IH]; [done|]. simpl.
  destruct (rstrip s) as [|c' r] eqn:Hr.
  - destruct (isspace c) eqn:Hc; [done|]. simpl. exact Hc.
  - exact IH.
Qed.

Lemma lstrip_empty_iff s : lstrip s = "" <-> all_space s = true.
Proof.
  induction s as [|c s IH]; [done|]. simpl.
  destruct (isspace c); simpl; [exact IH|]. split; discriminate.
Qed.

Lemma rstrip_empty_iff s : rstrip s = "" <-> all_space s = true.
Proof.
  induction s as [|c s IH]; [done|]. simpl.
  destruct (rstrip s) as [|c' r].
  - destruct (isspace c); simpl.
    + destruct IH as [IH _]. split; [intros _; by apply IH | done].
    + split; discriminate.
  - split; [discriminate|]. intros [_ Hs]%andb_true_iff.
    destruct IH as [_ IH]. by specialize (IH Hs).
Qed.

Lemma all_space_head s :
  starts_with_space s = false -> all_space s = true -> s = "".
Proof.
  destruct s as [|c s]; [done|]. simpl. intros ->. discriminate.
Qed.

(** [strip] returns the empty string for blank text and for nothing
    else. *)
Lemma strip_empty_iff s : strip s = "" <-> all_space s = true.
Proof.
  unfold strip. rewrite rstrip_empty_iff. split.
  - intros Hs. apply lstrip_empty_iff.
    by apply all_space_head; [apply lstrip_no_leading_space|].
  - intros Hs. apply lstrip_empty_iff in Hs. by rewrite Hs.
Qed.

End Strip.

(** X11. The description of a task added through the input field is never
    empty and neither begins nor ends with white space, whatever was
    typed. *)
Theorem added_description_is_trimmed (s : string) (st : state) :
  inv st -> strip s <> "" ->
  exists st' d,
    add s st = Ret st' /\
    task_objects st' !! 0 = Some (task d false) /\
    d <> "" /\ starts_with_space d = false /\ ends_with_space d = false.
Proof.
  intros Hinv Hs. rewrite (add_nonblank _ _ Hinv Hs).
  eexists _, (strip s). split; [done|].
  rewrite (task_objects_alloc _ _ _ _ _ (inv_alloc _ Hinv)).
  split; [done|]. split; [done|]. unfold strip. split.
  - apply rstrip_keeps_head, lstrip_no_leading_space.
  - apply rstrip_no_trailing_space.
Qed.

Lemma added_description_is_trimmed_witness :
  inv st_two /\
  exists st', add "   Pay rent  " st_two = Ret st' /\
              task_objects st' !! 0 = Some (task "Pay rent" false).
Proof.
  split; [exact st_two_inv|].
  assert (Hs : strip "   Pay rent  " <> "") by discriminate.
  destruct (added_description_is_trimmed "   Pay rent  " st_two st_two_inv Hs)
    as (st' & d & Hadd & Hobj & _).
  exists st'. split; [exact Hadd|].
  injection Hadd as <-. reflexivity.
Defined.

(** X12. Submitting the input field does nothing exactly when the text is
    blank: then the tasks, the heap and the world are as before and the
    text stays in the field; otherwise the list grows by one task and the
    field is emptied. *)
Theorem add_is_noop_iff_blank (s : string) (st : state) :
  inv st ->
  exists st', add s st = Ret st' /\
    (all_space s = true ->
       tasks st' = tasks st /\ heap st' = heap st /\ io st' = io st /\
       task_input st' = s) /\
    (all_space s = false ->
       length (tasks st') = S (length (tasks st)) /\ task_input st' = "").
Proof.
  intros Hinv. destruct (all_space s) eqn:Hblank.
  - apply strip_empty_iff in Hblank. rewrite (add_blank _ _ Hblank).
    eexists. split; [done|]. split; [done|discriminate].
  - assert (Hs : strip s <> "").
    { intros Hs%strip_empty_iff. congruence. }
    rewrite (add_nonblank _ _ Hinv Hs).
    eexists. split; [done|]. split; [discriminate|done].
Qed.

Lemma add_is_noop_iff_blank_witness :
  inv st_two /\
  exists st', add "   " st_two = Ret st' /\
              tasks st' = tasks st_two /\ task_input st' = "   ".
Proof.
  split; [exact st_two_inv|].
  destruct (add_is_noop_iff_blank "   " st_two st_two_inv)
    as (st' & Hadd & Hblank & _).
  destruct (Hblank eq_refl) as (Htasks & _ & _ & Hinput).
  by exists st'.
Defined.

(** ** Saves that fail *)





(** ** Check boxes *)







(** ** File traffic *)





(** ** Memory and file agree *)

Section Agreement.

Implicit Types (st : state) (o : op) (w : world).






End Agreement.


